(** * js-multihash: the codec of src/index.js, embedded and verified

    The module exports one function [mh] and attaches to it the tables
    [mh.names], [mh.codes], [mh.defaultLengths] and the functions
    [mh.encode], [mh.decode], [mh.validate], [mh.coerceCode],
    [mh.isAppCode].

    Conventions of the embedding.
    - The statements of the module body, run top to bottom when the module
      is loaded, are [load].  Line 40 passes an object literal to
      [new Map], which takes an iterable: the constructor throws a
      TypeError there and the load stops (see [new_Map] and [load]).
    - The functions read [mh.names] and [mh.codes] when they are called.
      They take the tables as a [Module] argument, whatever these hold at
      the call.
    - A JavaScript number is a [number]: NaN, an infinity or a finite
      value, the finite values being rationals (every finite double is
      one; the two zeros are one value, which no operation used here
      tells apart).
    - A [Buffer] is the list of its bytes, each an integer in [0, 256);
      [new Buffer([a, b])] stores each number as a byte ([ToUint8]).
    - A read [buf[i]] is [Buffer_get buf i : option Z]; [None] is the
      [undefined] that JavaScript yields out of range.
    - A [throw new Error(msg)] is [Err k] where [k : Error] names the
      message, a TypeError raised by the language is [Err TypeError]; a
      normal return is [Ok v].
    - A [Map] is the list of its entries in insertion order. *)

From Stdlib Require Import ZArith QArith Qround List String Bool Lia.
Import ListNotations.
Open Scope Q_scope.
Open Scope string_scope.
Open Scope Z_scope.

(** ** Errors and results *)

(** One constructor per [new Error(...)] of the source, and [TypeError]
    for the exception the language itself raises. *)
Inductive Error : Type :=
| MissingArguments      (* 'multihash must be called with the encode or decode parameters.'
                           'multihash encode requires at least two args: hashfn, digest' *)
| InvalidDigestType     (* 'digest should be a Buffer' *)
| LengthMismatch        (* 'digest length should be equal to specified length.' *)
| LengthTooLarge        (* 'multihash does not yet support digest lengths greater than 127 bytes.' *)
| NotAByteSequence      (* 'multihash must be a Buffer' *)
| TooShort              (* 'multihash too short. must be > 3 bytes.' *)
| TooLong               (* 'multihash too long. must be < 129 bytes.' *)
| UnknownFunctionCode   (* 'multihash unknown function code: 0x..' *)
| LengthInconsistent    (* 'multihash length inconsistent: 0x..' *)
| UnknownHashName       (* 'Unrecognized hash function named: ..' *)
| InvalidCodeType       (* 'Hash function code should be a number. Got: ..' *)
| UnrecognizedCode      (* 'Unrecognized function code: ..' *)
| TypeError.            (* raised by the language, not by a [throw] of the source *)

Inductive result (A : Type) : Type :=
| Ok (a : A)
| Err (e : Error).

Arguments Ok {A} a.
Arguments Err {A} e.

Definition bind {A B : Type} (r : result A) (k : A -> result B) : result B :=
  match r with
  | Ok a => k a
  | Err e => Err e
  end.

Notation "x <- r ;; k" := (bind r (fun x => k))
  (at level 61, r at next level, right associativity).

(** ** Numbers *)

Inductive number : Type :=
| NaN
| Infinity (negative : bool)
| Finite (q : Q).

(** The number of an integer. *)
Definition of_Z (z : Z) : number := Finite (inject_Z z).

(** [!n] is [negb (truthy_number n)]: 0 and NaN are falsy. *)
Definition truthy_number (n : number) : bool :=
  match n with
  | NaN => false
  | Infinity _ => true
  | Finite q => negb (Qeq_bool q 0)
  end.

(** [a < b]; a comparison with NaN is false. *)
Definition number_ltb (a b : number) : bool :=
  match a, b with
  | NaN, _ | _, NaN => false
  | Infinity sa, Infinity sb => sa && negb sb
  | Infinity sa, Finite _ => sa
  | Finite _, Infinity sb => negb sb
  | Finite p, Finite q => negb (Qle_bool q p)
  end.

(** [a > b] *)
Definition number_gtb (a b : number) : bool := number_ltb b a.

(** [a === b] on numbers: NaN is not equal to itself. *)
Definition strict_eq (a b : number) : bool :=
  match a, b with
  | Finite p, Finite q => Qeq_bool p q
  | Infinity sa, Infinity sb => Bool.eqb sa sb
  | _, _ => false
  end.

(** The equality of [Map] keys (SameValueZero): [===], but NaN equals
    NaN. *)
Definition same_value_zero (a b : number) : bool :=
  match a, b with
  | NaN, NaN => true
  | _, _ => strict_eq a b
  end.

(** The integer part, rounded towards 0. *)
Definition truncate (q : Q) : Z :=
  if Qle_bool 0 q then Qfloor q else Qceiling q.

(** The byte stored for a number: its integer part modulo 256, and 0 for
    NaN and the infinities. *)
Definition ToUint8 (n : number) : Z :=
  match n with
  | Finite q => truncate q mod 256
  | _ => 0
  end.

(** ** Values *)

Definition Buffer : Type := list Z.

(** The values a caller can pass where the source tests a type at run
    time.  An object that is not a Buffer matters here only through
    whether it can be converted to a string ([printable]); a symbol
    cannot. *)
Inductive value : Type :=
| VUndefined
| VNull
| VBool (b : bool)
| VNum (n : number)
| VStr (s : string)
| VBuf (b : Buffer)
| VSymbol
| VObject (printable : bool).

(** [!v] is [negb (truthy v)]. *)
Definition truthy (v : value) : bool :=
  match v with
  | VUndefined | VNull => false
  | VBool b => b
  | VNum n => truthy_number n
  | VStr s => negb (s =? "")%string
  | VBuf _ | VSymbol | VObject _ => true
  end.

(** [v == null], true of [null] and [undefined] only. *)
Definition is_nullish (v : value) : bool :=
  match v with
  | VUndefined | VNull => true
  | _ => false
  end.

(** Whether ['text' + v] yields a string; it throws a TypeError for a
    symbol and for an object without a conversion. *)
Definition concatenable (v : value) : bool :=
  match v with
  | VSymbol => false
  | VObject printable => printable
  | _ => true
  end.

(** [n !== v], [n] a number: a value of another type is never equal. *)
Definition strict_neq_number (n : number) (v : value) : bool :=
  match v with
  | VNum m => negb (strict_eq n m)
  | _ => true
  end.

(** Truthiness of what [Map.get] returns: [undefined], 0, NaN and the
    empty string are falsy. *)
Definition truthy_num (o : option number) : bool :=
  match o with
  | Some n => truthy_number n
  | None => false
  end.

Definition truthy_str (o : option string) : bool :=
  match o with
  | Some s => negb (s =? "")%string
  | None => false
  end.

Definition Buffer_get (b : Buffer) (i : nat) : option Z := nth_error b i.

(** [buf.slice(start)] *)
Definition Buffer_slice (b : Buffer) (start : nat) : Buffer := skipn start b.

(** [buf.length] *)
Definition Buffer_length (b : Buffer) : Z := Z.of_nat (List.length b).

(** [new Buffer(array)] *)
Definition Buffer_from (a : list number) : Buffer := map ToUint8 a.

(** [Buffer.concat([a, b])] *)
Definition Buffer_concat (bs : list Buffer) : Buffer := List.concat bs.

(** ** Maps *)

Section JsMap.
Variables K V : Type.
Variable eqb : K -> K -> bool.

Definition Map : Type := list (K * V).

Fixpoint Map_get (m : Map) (k : K) : option V :=
  match m with
  | [] => None
  | (k', v) :: m' => if eqb k' k then Some v else Map_get m' k
  end.

(** [set] overwrites the value of a key already present, in place, and
    appends a new key. *)
Fixpoint Map_set (m : Map) (k : K) (v : V) : Map :=
  match m with
  | [] => [(k, v)]
  | (k', v') :: m' =>
      if eqb k' k then (k', v) :: m' else (k', v') :: Map_set m' k v
  end.

Definition Map_keys (m : Map) : list K := map fst m.

(** The map that [new Map] fills from the entries of an iterable. *)
Definition Map_new (entries : list (K * V)) : Map :=
  fold_left (fun m e => Map_set m (fst e) (snd e)) entries [].

(** What is passed to [new Map]: an array of [key, value] pairs, or an
    object literal with its properties. *)
Inductive MapArg : Type :=
| Entries (entries : list (K * V))
| ObjectLiteral (properties : list (string * V)).

(** [new Map(arg)]: the constructor iterates over its argument; an object
    literal is not iterable, and the constructor throws a TypeError. *)
Definition new_Map (arg : MapArg) : result Map :=
  match arg with
  | Entries entries => Ok (Map_new entries)
  | ObjectLiteral _ => Err TypeError
  end.
End JsMap.

Arguments Map_get {K V} eqb m k.
Arguments Map_set {K V} eqb m k v.
Arguments Map_keys {K V} m.
Arguments Map_new {K V} eqb entries.
Arguments Entries {K V} entries.
Arguments ObjectLiteral {K V} properties.
Arguments new_Map {K V} eqb arg.

(** [invert]: the loop runs over the keys in insertion order and sets
    [reverse[map.get(key)] = key]; a key whose lookup were [undefined]
    cannot occur, the keys being those of [map]. *)
Definition invert {K V : Type} (eqK : K -> K -> bool) (eqV : V -> V -> bool)
  (map : Map K V) : Map V K :=
  fold_left
    (fun reverse key =>
       match Map_get eqK map key with
       | Some v => Map_set eqV reverse v key
       | None => reverse
       end)
    (Map_keys map) [].

(** ** The module and its tables *)

(** The tables attached to [mh], as the functions find them. *)
Record Module : Type := mkModule {
  names : Map string number;
  codes : Map number string;
  defaultLengths : Map number number
}.

(** The properties of the object literal of line 40. *)
Definition names_literal : list (string * number) :=
  [ ("sha1", of_Z 0x11);
    ("sha2-256", of_Z 0x12);
    ("sha2-512", of_Z 0x13);
    ("sha3", of_Z 0x14);
    ("blake2b", of_Z 0x40);
    ("blake2s", of_Z 0x41) ].

(** The pairs of the array of line 51. *)
Definition defaultLengths_entries : list (number * number) :=
  [ (of_Z 0x11, of_Z 20); (of_Z 0x12, of_Z 32); (of_Z 0x13, of_Z 64);
    (of_Z 0x14, of_Z 64); (of_Z 0x40, of_Z 64); (of_Z 0x41, of_Z 3) ].

(** Loading the module: lines 40, 49 and 51 in turn. *)
Definition load : result Module :=
  names <- new_Map String.eqb (ObjectLiteral names_literal) ;;
  let codes := invert String.eqb same_value_zero names in
  defaultLengths <- new_Map same_value_zero (Entries defaultLengths_entries) ;;
  Ok {| names := names; codes := codes; defaultLengths := defaultLengths |}.

(** ** Functions *)

Definition isAppCode (code : number) : bool :=
  number_gtb code (of_Z 0) && number_ltb code (of_Z 0x10).

Definition coerceCode (M : Module) (hashfn : value) : result number :=
  code <- match hashfn with
          | VStr s =>
              if negb (truthy_num (Map_get String.eqb (names M) s))
              then Err UnknownHashName
              else Ok match Map_get String.eqb (names M) s with
                      | Some c => VNum c
                      | None => VUndefined
                      end
          | _ => Ok hashfn
          end ;;
  match code with
  | VNum c =>
      if negb (truthy_str (Map_get same_value_zero (codes M) c))
         && negb (isAppCode c)
      then Err UnrecognizedCode
      else Ok c
  | _ =>
      (* the message is built as ['...Got: ' + code] *)
      if concatenable code then Err InvalidCodeType else Err TypeError
  end.

(** [validate] returns an [Error] or nothing; it has no [throw]. *)
Definition validate (M : Module) (multihash : value) : option Error :=
  match multihash with
  | VBuf b =>
      if Buffer_length b <? 3 then Some TooShort
      else if Buffer_length b >? 129 then Some TooLong
      else if
        negb (match Buffer_get b 0 with
              | Some c => isAppCode (of_Z c)
              | None => false
              end)
        && negb (truthy_str (match Buffer_get b 0 with
                             | Some c =>
                                 Map_get same_value_zero (codes M) (of_Z c)
                             | None => None
                             end))
      then Some UnknownFunctionCode
      else if
        negb (match Buffer_get b 1 with
              | Some l => Buffer_length (Buffer_slice b 2) =? l
              | None => false
              end)
      then Some LengthInconsistent
      else None
  | _ => Some NotAByteSequence
  end.

Record Decoded : Type := mkDecoded {
  code : option Z;
  name : option string;
  length : option Z;
  digest : Buffer
}.

Definition decode (M : Module) (multihash : Buffer) : result Decoded :=
  match validate M (VBuf multihash) with
  | Some err => Err err
  | None =>
      let code := Buffer_get multihash 0 in
      Ok {| code := code;
            name := match code with
                    | Some c => Map_get same_value_zero (codes M) (of_Z c)
                    | None => None
                    end;
            length := Buffer_get multihash 1;
            digest := Buffer_slice multihash 2 |}
  end.

(** An omitted [length] is [VUndefined]. *)
Definition encode (M : Module) (digest hashfn length : value) : result Buffer :=
  if negb (truthy digest) || negb (truthy hashfn) then Err MissingArguments
  else
    hashfn <- coerceCode M hashfn ;;
    match digest with
    | VBuf d =>
        let length := if negb (truthy length)
                      then VNum (of_Z (Buffer_length d))
                      else length in
        if truthy length && strict_neq_number (of_Z (Buffer_length d)) length
        then Err LengthMismatch
        else
          match length with
          | VNum n =>
              if number_gtb n (of_Z 127) then Err LengthTooLarge
              else Ok (Buffer_concat [Buffer_from [hashfn; n]; d])
          | _ =>
              (* not reached: what is not a number was kept for being
                 truthy, and differs from [digest.length] *)
              Err LengthMismatch
          end
    | _ => Err InvalidDigestType
    end.

(** What the exported function returns: a [Buffer] or a [Decoded]. *)
Inductive Output : Type :=
| Encoded (b : Buffer)
| DecodedOut (d : Decoded).

Definition mh (M : Module) (hashOrDigest hashfn length : value)
  : result Output :=
  if is_nullish hashOrDigest then Err MissingArguments
  else if negb (is_nullish hashfn) then
    b <- encode M hashOrDigest hashfn length ;; Ok (Encoded b)
  else
    (* [mh.decode] begins with [mh.validate], which rejects whatever is
       not a Buffer *)
    match hashOrDigest with
    | VBuf b => d <- decode M b ;; Ok (DecodedOut d)
    | _ => Err NotAByteSequence
    end.

(** ** The contracts, as the specification words them *)

(** A registered code is a code that the code table names. *)
Definition registered_code (M : Module) (c : Z) : Prop :=
  exists n, Map_get same_value_zero (codes M) (of_Z c) = Some n /\ n <> "".

(** An application code is an integer strictly between 0 and 0x10. *)
Definition application_code (c : Z) : Prop := 1 <= c <= 15.

Definition valid_code (M : Module) (c : Z) : Prop :=
  registered_code M c \/ application_code c.

(** The contract of [validate] in the specification's words: the five
    failure reasons in the order they are checked, each under the
    condition that the earlier checks passed, and no failure otherwise. *)
Inductive validate_spec (M : Module) : value -> option Error -> Prop :=
| VS_NotAByteSequence (v : value) :
    (forall b, v <> VBuf b) ->
    validate_spec M v (Some NotAByteSequence)
| VS_TooShort (b : Buffer) :
    (List.length b < 3)%nat ->
    validate_spec M (VBuf b) (Some TooShort)
| VS_TooLong (b : Buffer) :
    (List.length b > 129)%nat ->
    validate_spec M (VBuf b) (Some TooLong)
| VS_UnknownFunctionCode (c l : Z) (d : Buffer) :
    (3 <= List.length (c :: l :: d) <= 129)%nat ->
    ~ valid_code M c ->
    validate_spec M (VBuf (c :: l :: d)) (Some UnknownFunctionCode)
| VS_LengthInconsistent (c l : Z) (d : Buffer) :
    (3 <= List.length (c :: l :: d) <= 129)%nat ->
    valid_code M c ->
    Z.of_nat (List.length d) <> l ->
    validate_spec M (VBuf (c :: l :: d)) (Some LengthInconsistent)
| VS_NoFailure (c l : Z) (d : Buffer) :
    (3 <= List.length (c :: l :: d) <= 129)%nat ->
    valid_code M c ->
    Z.of_nat (List.length d) = l ->
    validate_spec M (VBuf (c :: l :: d)) None.

(** The length [encode] goes on with after its steps 4 and 5: the
    digest's byte length for a falsy argument, the argument itself when it
    is the digest's byte length, and none when step 5 fails. *)
Definition resulting_length (d : Buffer) (len : value) : option number :=
  if negb (truthy len) then Some (of_Z (Buffer_length d))
  else match len with
       | VNum n => if strict_eq (of_Z (Buffer_length d)) n then Some n else None
       | _ => None
       end.

(** [decode(encode(digest, code))], the failure of either step being the
    failure of the whole. *)
Definition roundtrip (M : Module) (digest : Buffer) (code : Z)
  : result Decoded :=
  b <- encode M (VBuf digest) (VNum (of_Z code)) VUndefined ;; decode M b.

(** The six entries of the reference table, with integer codes. *)
Definition reference_entries : Map string Z :=
  [ ("sha1", 0x11); ("sha2-256", 0x12); ("sha2-512", 0x13);
    ("sha3", 0x14); ("blake2b", 0x40); ("blake2s", 0x41) ].

(** The tables of a module in which line 40 passes its six entries as an
    array of pairs, the way line 51 does.  [load] does not build it; it is
    a concrete state of the tables to evaluate the functions on. *)
Definition reference_module : Module :=
  let names := Map_new String.eqb names_literal in
  {| names := names;
     codes := invert String.eqb same_value_zero names;
     defaultLengths := Map_new same_value_zero defaultLengths_entries |}.

(** A module without any entry in its tables. *)
Definition empty_module : Module :=
  {| names := []; codes := []; defaultLengths := [] |}.

(** ** Facts about numbers *)

Lemma truthy_number_of_Z (z : Z) : truthy_number (of_Z z) = negb (z =? 0).
Proof.
  unfold truthy_number, of_Z, Qeq_bool, inject_Z. simpl.
  rewrite Z.mul_1_r. reflexivity.
Qed.

Lemma number_ltb_of_Z (a b : Z) : number_ltb (of_Z a) (of_Z b) = (a <? b).
Proof.
  unfold number_ltb, of_Z, Qle_bool, inject_Z. simpl.
  rewrite !Z.mul_1_r. symmetry. apply Z.ltb_antisym.
Qed.

Lemma number_gtb_of_Z (a b : Z) : number_gtb (of_Z a) (of_Z b) = (b <? a).
Proof. unfold number_gtb. apply number_ltb_of_Z. Qed.

Lemma strict_eq_of_Z (a b : Z) : strict_eq (of_Z a) (of_Z b) = (a =? b).
Proof.
  unfold strict_eq, of_Z, Qeq_bool, inject_Z. simpl.
  rewrite !Z.mul_1_r. reflexivity.
Qed.

Lemma ToUint8_of_Z (z : Z) : ToUint8 (of_Z z) = z mod 256.
Proof.
  unfold ToUint8, of_Z, truncate.
  destruct (Qle_bool 0 (inject_Z z)); [rewrite Qfloor_Z | rewrite Qceiling_Z];
    reflexivity.
Qed.

Lemma ToUint8_byte (z : Z) : 0 <= z < 256 -> ToUint8 (of_Z z) = z.
Proof. intros H. rewrite ToUint8_of_Z. apply Z.mod_small. exact H. Qed.

Lemma isAppCode_of_Z (c : Z) :
  isAppCode (of_Z c) = true <-> application_code c.
Proof.
  unfold isAppCode, application_code.
  rewrite number_gtb_of_Z, number_ltb_of_Z. lia.
Qed.

(** A number equal to an integer, as [===] has it, is stored as that
    integer's byte. *)
Lemma strict_eq_ToUint8 (z : Z) (n : number) :
  strict_eq (of_Z z) n = true -> ToUint8 n = z mod 256.
Proof.
  destruct n as [ | s | q]; try discriminate. unfold strict_eq, of_Z.
  intros H. apply Qeq_bool_iff in H. unfold ToUint8, truncate.
  assert (Hf : Qfloor q = z) by (rewrite <- H; apply Qfloor_Z).
  assert (Hc : Qceiling q = z) by (rewrite <- H; apply Qceiling_Z).
  destruct (Qle_bool 0 q); [rewrite Hf | rewrite Hc]; reflexivity.
Qed.

Lemma strict_eq_gtb (z : Z) (n : number) (k : Z) :
  strict_eq (of_Z z) n = true -> number_gtb n (of_Z k) = (k <? z).
Proof.
  destruct n as [ | s | q]; try discriminate. unfold strict_eq, of_Z.
  intros H. apply Qeq_bool_iff in H.
  rewrite <- number_gtb_of_Z. unfold number_gtb, number_ltb, of_Z.
  f_equal. apply Qleb_comp; [symmetry; exact H | reflexivity].
Qed.

(** ** Facts about the code tests *)

Lemma codes_get_truthy (M : Module) (c : Z) :
  truthy_str (Map_get same_value_zero (codes M) (of_Z c)) = true
  <-> registered_code M c.
Proof.
  unfold registered_code.
  destruct (Map_get same_value_zero (codes M) (of_Z c)) as [n | ]; simpl.
  - destruct (String.eqb_spec n ""); simpl; split.
    + discriminate.
    + intros (n' & E & Hn). inversion E; subst. contradiction.
    + intros _. exists n. split; [reflexivity | assumption].
    + reflexivity.
  - split; [discriminate | intros (n & E & _); discriminate].
Qed.

(** The test of [validate] on byte 0 passes exactly on the valid codes. *)
Lemma validate_code_test (M : Module) (c : Z) :
  negb (isAppCode (of_Z c))
  && negb (truthy_str (Map_get same_value_zero (codes M) (of_Z c))) = false
  <-> valid_code M c.
Proof.
  unfold valid_code. rewrite <- codes_get_truthy, <- isAppCode_of_Z.
  destruct (truthy_str _), (isAppCode (of_Z c)); simpl; intuition congruence.
Qed.

(** The test of [coerceCode], which has the two operands the other way
    round. *)
Lemma coerceCode_code_test (M : Module) (c : Z) :
  negb (truthy_str (Map_get same_value_zero (codes M) (of_Z c)))
  && negb (isAppCode (of_Z c)) = false
  <-> valid_code M c.
Proof. rewrite andb_comm. apply validate_code_test. Qed.

Lemma coerceCode_valid (M : Module) (c : Z) :
  valid_code M c -> coerceCode M (VNum (of_Z c)) = Ok (of_Z c).
Proof.
  intros H. apply coerceCode_code_test in H. unfold coerceCode; cbn [bind].
  rewrite H. reflexivity.
Qed.

(** What [coerceCode] returns has passed its test on codes. *)
Lemma coerceCode_ok_test (M : Module) (hashfn : value) (c : number) :
  coerceCode M hashfn = Ok c ->
  negb (truthy_str (Map_get same_value_zero (codes M) c))
  && negb (isAppCode c) = false.
Proof.
  unfold coerceCode.
  assert (T : forall v : value,
             match v with
             | VNum c0 =>
                 if negb (truthy_str (Map_get same_value_zero (codes M) c0))
                    && negb (isAppCode c0)
                 then Err UnrecognizedCode else Ok c0
             | _ => if concatenable v then Err InvalidCodeType
                    else Err TypeError
             end = Ok c ->
             negb (truthy_str (Map_get same_value_zero (codes M) c))
             && negb (isAppCode c) = false).
  { intros v H. destruct v as [ | | b | n | s | b | | p];
      try (destruct (concatenable _); discriminate H).
    destruct (negb (truthy_str (Map_get same_value_zero (codes M) n))
              && negb (isAppCode n)) eqn:E; [discriminate H | ].
    inversion H; subst. exact E. }
  match goal with
  | |- bind ?r _ = _ -> _ => destruct r as [v | e]
  end; cbn [bind]; [exact (T v) | discriminate].
Qed.

(** ** Facts about validate *)

Lemma validate_not_buffer (M : Module) (v : value) :
  (forall b, v <> VBuf b) -> validate M v = Some NotAByteSequence.
Proof.
  destruct v; intros H; try reflexivity. exfalso; exact (H b eq_refl).
Qed.

Lemma validate_short (M : Module) (b : Buffer) :
  (List.length b < 3)%nat -> validate M (VBuf b) = Some TooShort.
Proof.
  intros H. unfold validate, Buffer_length.
  destruct (Z.ltb_spec (Z.of_nat (List.length b)) 3); [reflexivity | lia].
Qed.

Lemma validate_long (M : Module) (b : Buffer) :
  (List.length b > 129)%nat -> validate M (VBuf b) = Some TooLong.
Proof.
  intros H. unfold validate, Buffer_length.
  destruct (Z.ltb_spec (Z.of_nat (List.length b)) 3); [lia | ].
  destruct (Z.gtb_spec (Z.of_nat (List.length b)) 129); [reflexivity | lia].
Qed.

(** Past the two length checks the reads of bytes 0 and 1 are in range. *)
Lemma validate_in_range (M : Module) (c l : Z) (d : Buffer) :
  (3 <= List.length (c :: l :: d) <= 129)%nat ->
  validate M (VBuf (c :: l :: d)) =
    if negb (isAppCode (of_Z c))
       && negb (truthy_str (Map_get same_value_zero (codes M) (of_Z c)))
    then Some UnknownFunctionCode
    else if negb (Z.of_nat (List.length d) =? l)
         then Some LengthInconsistent
         else None.
Proof.
  intros H. unfold validate, Buffer_length.
  destruct (Z.ltb_spec (Z.of_nat (List.length (c :: l :: d))) 3); [lia | ].
  destruct (Z.gtb_spec (Z.of_nat (List.length (c :: l :: d))) 129); [lia | ].
  reflexivity.
Qed.

Lemma validate_meets_spec (M : Module) (v : value) :
  validate_spec M v (validate M v).
Proof.
  destruct v as [ | | x | n | s | b | | p];
    try (apply VS_NotAByteSequence; discriminate).
  destruct (Nat.lt_ge_cases (List.length b) 3) as [Hs | Hs].
  { rewrite validate_short by exact Hs. apply VS_TooShort; exact Hs. }
  destruct (Nat.lt_ge_cases 129 (List.length b)) as [Hl | Hl].
  { rewrite validate_long by exact Hl. apply VS_TooLong; exact Hl. }
  destruct b as [ | c [ | l d]]; [simpl in Hs; lia | simpl in Hs; lia | ].
  rewrite validate_in_range by (split; assumption).
  destruct (negb (isAppCode (of_Z c))
            && negb (truthy_str (Map_get same_value_zero (codes M) (of_Z c))))
    eqn:Ec.
  - apply VS_UnknownFunctionCode; [split; assumption | ].
    intros Hv. apply validate_code_test in Hv. congruence.
  - apply validate_code_test in Ec.
    destruct (Z.eqb_spec (Z.of_nat (List.length d)) l) as [El | El]; simpl.
    + apply VS_NoFailure; [split; assumption | assumption | assumption].
    + apply VS_LengthInconsistent;
        [split; assumption | assumption | assumption].
Qed.

Lemma validate_spec_functional (M : Module) (v : value) (r : option Error) :
  validate_spec M v r -> validate M v = r.
Proof.
  intros H.
  destruct H as [v H | b H | b H | c l d H Hc | c l d H Hc Hl | c l d H Hc Hl].
  - apply validate_not_buffer; exact H.
  - apply validate_short; exact H.
  - apply validate_long; exact H.
  - rewrite validate_in_range by exact H.
    destruct (negb (isAppCode (of_Z c))
              && negb (truthy_str
                         (Map_get same_value_zero (codes M) (of_Z c))))
      eqn:Ec; [reflexivity | ].
    apply validate_code_test in Ec. contradiction.
  - rewrite validate_in_range by exact H.
    apply validate_code_test in Hc. rewrite Hc.
    destruct (Z.eqb_spec (Z.of_nat (List.length d)) l);
      [contradiction | reflexivity].
  - rewrite validate_in_range by exact H.
    apply validate_code_test in Hc. rewrite Hc.
    destruct (Z.eqb_spec (Z.of_nat (List.length d)) l);
      [reflexivity | contradiction].
Qed.

(** A sequence that passes [validate] is a code byte, a length byte and
    as many digest bytes as the length byte says. *)
Lemma validate_none_shape (M : Module) (b : Buffer) :
  validate M (VBuf b) = None ->
  exists c l d,
    b = c :: l :: d /\ (3 <= List.length b <= 129)%nat /\
    valid_code M c /\ Z.of_nat (List.length d) = l.
Proof.
  intros H. pose proof (validate_meets_spec M (VBuf b)) as S.
  rewrite H in S. inversion S; subst.
  exists c, (Z.of_nat (List.length d)), d. repeat split; try assumption; lia.
Qed.

Lemma validate_valid_envelope (M : Module) (c : Z) (d : Buffer) :
  valid_code M c -> (1 <= List.length d <= 127)%nat ->
  validate M (VBuf (c :: Buffer_length d :: d)) = None.
Proof.
  intros Hc Hd. apply validate_spec_functional. apply VS_NoFailure;
    [cbn [List.length]; lia | exact Hc | reflexivity].
Qed.

(** ** Facts about decode *)

Lemma decode_err (M : Module) (b : Buffer) (e : Error) :
  validate M (VBuf b) = Some e -> decode M b = Err e.
Proof. intros H. unfold decode. rewrite H. reflexivity. Qed.

Lemma decode_ok (M : Module) (c l : Z) (d : Buffer) :
  validate M (VBuf (c :: l :: d)) = None ->
  decode M (c :: l :: d) =
    Ok {| code := Some c;
          name := Map_get same_value_zero (codes M) (of_Z c);
          length := Some l; digest := d |}.
Proof. intros H. unfold decode. rewrite H. reflexivity. Qed.

(** ** Facts about encode *)

(** With a Buffer for digest and a truthy designator that [coerceCode]
    accepts, [encode] comes down to its checks on the length. *)
Lemma encode_buffer (M : Module) (d : Buffer) (hashfn : value) (c : number)
  (len : value) :
  truthy hashfn = true ->
  coerceCode M hashfn = Ok c ->
  encode M (VBuf d) hashfn len =
    match resulting_length d len with
    | None => Err LengthMismatch
    | Some _ =>
        if 127 <? Buffer_length d then Err LengthTooLarge
        else Ok (ToUint8 c :: Buffer_length d :: d)
    end.
Proof.
  intros Ht Hc. unfold encode, resulting_length.
  cbn [truthy negb orb]. rewrite Ht, Hc. cbn [negb bind].
  assert (G : forall n : number,
             strict_eq (of_Z (Buffer_length d)) n = true ->
             (if number_gtb n (of_Z 127) then Err LengthTooLarge
              else Ok (Buffer_concat [Buffer_from [c; n]; d])) =
             (if 127 <? Buffer_length d then Err LengthTooLarge
              else Ok (ToUint8 c :: Buffer_length d :: d))).
  { intros n Hn. rewrite (strict_eq_gtb _ _ 127 Hn).
    destruct (Z.ltb_spec 127 (Buffer_length d)); [reflexivity | ].
    cbn [Buffer_concat Buffer_from List.concat map app].
    rewrite app_nil_r, (strict_eq_ToUint8 _ _ Hn), Z.mod_small;
      [reflexivity | unfold Buffer_length in *; lia]. }
  destruct (truthy len) eqn:Tl; cbn [negb].
  - rewrite Tl. cbn [andb].
    destruct len as [ | | x | n | s | x | | p]; try reflexivity.
    cbn [strict_neq_number].
    destruct (strict_eq (of_Z (Buffer_length d)) n) eqn:E; cbn [negb];
      [apply G; exact E | reflexivity].
  - cbn [strict_neq_number]. rewrite strict_eq_of_Z, Z.eqb_refl.
    cbn [negb]. rewrite andb_false_r.
    apply G. rewrite strict_eq_of_Z. apply Z.eqb_refl.
Qed.

Lemma resulting_length_falsy (d : Buffer) (len : value) :
  truthy len = false -> resulting_length d len = Some (of_Z (Buffer_length d)).
Proof. intros H. unfold resulting_length. rewrite H. reflexivity. Qed.

Lemma resulting_length_none (d : Buffer) (len : value) :
  resulting_length d len = None <->
  truthy len = true /\ strict_neq_number (of_Z (Buffer_length d)) len = true.
Proof.
  unfold resulting_length. destruct (truthy len); cbn [negb].
  - destruct len as [ | | x | n | s | x | | p]; cbn [strict_neq_number];
      try (split; [intros _; split; reflexivity | reflexivity]).
    destruct (strict_eq (of_Z (Buffer_length d)) n); cbn [negb]; split;
      try discriminate; try (intros [_ H]; discriminate H);
      intros _; split; reflexivity.
  - split; [discriminate | intros [H _]; discriminate H].
Qed.

(** ** Facts about the reference tables *)

Lemma reference_module_entries (n : string) (c : Z) :
  In (n, c) reference_entries ->
  Map_get String.eqb (names reference_module) n = Some (of_Z c) /\
  Map_get same_value_zero (codes reference_module) (of_Z c) = Some n.
Proof.
  intros H; simpl in H.
  repeat (destruct H as [H | H]; [inversion H; subst; split; reflexivity | ]).
  contradiction.
Qed.

(** * Properties of the codec *)

(** ** C1 *)

(** C1, as stated, fails on the empty digest: with the application code 5
    and a digest of no bytes (at most 127 bytes, a valid code), [encode]
    returns [[5; 0]], which [decode] rejects as too short instead of
    returning the record of the claim, whatever the tables hold. *)
Lemma roundtrip_empty_digest_rejected :
  (List.length (@nil Z) <= 127)%nat /\ application_code 5 /\
  (forall M, roundtrip M [] 5 = Err TooShort) /\
  ~ (exists M,
        roundtrip M [] 5 =
          Ok {| code := Some 5;
                name := Map_get same_value_zero (codes M) (of_Z 5);
                length := Some (Buffer_length []); digest := [] |}).
Proof.
  assert (A : application_code 5) by (unfold application_code; lia).
  assert (R : forall M, roundtrip M [] 5 = Err TooShort).
  { intros M. unfold roundtrip.
    rewrite (encode_buffer M [] (VNum (of_Z 5)) (of_Z 5) VUndefined
               eq_refl (coerceCode_valid M 5 (or_intror A))).
    reflexivity. }
  split; [simpl; lia | ]. split; [exact A | ]. split; [exact R | ].
  intros [M H]. rewrite R in H. discriminate H.
Qed.

(** C1, amended: for every digest of 1 to 127 bytes and every valid code (a
    code from 1 to 255 that the code table names, or an application code in
    1..15), [decode(encode(digest, code))] returns the record with that
    code, the name the code table gives for it (none when the table has
    no entry for it), the digest's byte length and the digest. *)
Theorem roundtrip_nonempty_digest (M : Module) (digest : Buffer) (code : Z) :
  (1 <= List.length digest <= 127)%nat ->
  1 <= code <= 255 ->
  valid_code M code ->
  roundtrip M digest code =
    Ok {| code := Some code;
          name := Map_get same_value_zero (codes M) (of_Z code);
          length := Some (Buffer_length digest); digest := digest |}.
Proof.
  intros Hlen Hbyte Hcode. unfold roundtrip.
  assert (Ht : truthy (VNum (of_Z code)) = true).
  { cbn [truthy]. rewrite truthy_number_of_Z.
    destruct (Z.eqb_spec code 0); [lia | reflexivity]. }
  rewrite (encode_buffer M digest (VNum (of_Z code)) (of_Z code) VUndefined
             Ht (coerceCode_valid M code Hcode)).
  rewrite resulting_length_falsy by reflexivity.
  destruct (Z.ltb_spec 127 (Buffer_length digest)) as [H | H];
    [unfold Buffer_length in H; lia | ].
  rewrite ToUint8_byte by lia. cbn [bind].
  apply decode_ok. apply validate_valid_envelope; assumption.
Qed.

Lemma roundtrip_nonempty_digest_witness :
  roundtrip empty_module [0xde; 0xad] 7 =
    Ok {| code := Some 7;
          name := Map_get same_value_zero (codes empty_module) (of_Z 7);
          length := Some (Buffer_length [0xde; 0xad]);
          digest := [0xde; 0xad] |}.
Proof.
  apply (roundtrip_nonempty_digest empty_module [0xde; 0xad] 7).
  - simpl; lia.
  - lia.
  - right. unfold application_code. lia.
Defined.

(** ** C2 *)

(** C2, on the code: loading the module throws a TypeError, at the
    [new Map] of line 40, which is given an object literal where an
    iterable is expected; [mh.names] and [mh.codes] are never built.  With
    the six entries passed as pairs, the way line 51 passes those of
    [mh.defaultLengths], the two tables hold each entry in both
    directions. *)
Theorem load_throws_TypeError :
  load = Err TypeError /\
  (forall n c,
      In (n, c) reference_entries ->
      Map_get String.eqb (names reference_module) n = Some (of_Z c) /\
      Map_get same_value_zero (codes reference_module) (of_Z c) = Some n).
Proof. split; [reflexivity | exact reference_module_entries]. Qed.

Lemma load_throws_TypeError_witness :
  Map_get String.eqb (names reference_module) "sha3" = Some (of_Z 0x14) /\
  Map_get same_value_zero (codes reference_module) (of_Z 0x14) = Some "sha3".
Proof.
  apply (proj2 load_throws_TypeError "sha3" 0x14). simpl. tauto.
Defined.

(** ** C3 *)

(** C3, on the code: a call of [coerceCode] has to follow the loading of
    the module, which throws a TypeError (line 40); no designator is
    resolved.  On the reference tables the four calls give what the claim
    says. *)
Theorem coerceCode_after_load :
  (forall hashfn, (M <- load ;; coerceCode M hashfn) = Err TypeError) /\
  coerceCode reference_module (VStr "sha2-256") = Ok (of_Z 0x12) /\
  coerceCode reference_module (VNum (of_Z 0x12)) = Ok (of_Z 0x12) /\
  coerceCode reference_module (VStr "not-a-hash") = Err UnknownHashName /\
  coerceCode reference_module (VNum (of_Z 0x99)) = Err UnrecognizedCode.
Proof. repeat split. Qed.

(** ** C4 *)

(** C4: on every input and whatever the tables hold, [validate] returns
    (it is a total function with no [throw]), and what it returns is the
    outcome the ordered contract [validate_spec] fixes for that input, and
    no other: NotAByteSequence for what is not a Buffer, else TooShort
    under 3 bytes, else TooLong over 129, else UnknownFunctionCode for a
    byte 0 that is neither named by the code table nor an application
    code, else LengthInconsistent when the bytes after the first two are
    not as many as byte 1 says, else no failure. *)
Theorem validate_ordered_contract (M : Module) (v : value) (r : option Error) :
  validate M v = r <-> validate_spec M v r.
Proof.
  split.
  - intros <-. apply validate_meets_spec.
  - apply validate_spec_functional.
Qed.

Lemma validate_ordered_contract_witness :
  validate_spec empty_module (VBuf [0x99; 7; 1]) (Some UnknownFunctionCode).
Proof.
  apply (proj1 (validate_ordered_contract empty_module (VBuf [0x99; 7; 1])
                  (Some UnknownFunctionCode))).
  reflexivity.
Defined.

(** ** C5 *)

(** C5, as stated, fails: the sequence [[5; 0]] has two bytes, so
    [validate] reports a failure on it and [decode] returns no record,
    whatever the tables hold. *)
Lemma zero_length_envelope_rejected :
  ~ (exists M,
        validate M (VBuf [5; 0]) = None /\
        exists r, decode M [5; 0] = Ok r /\ name r = None).
Proof. intros (M & H & _). discriminate H. Qed.

(** C5, amended: [validate] reports TooShort on [[5; 0]] and [decode] fails
    with that failure; an envelope with the application code 5 passes
    validation once it carries a digest byte: on [[5; 1; x]], for every
    byte x, [validate] reports no failure and [decode] returns the record
    of code 5 with the code table's name for 5, which is undefined when
    the table has no entry for 5. *)
Theorem application_code_envelope (M : Module) :
  validate M (VBuf [5; 0]) = Some TooShort /\
  decode M [5; 0] = Err TooShort /\
  forall x : Z,
    validate M (VBuf [5; 1; x]) = None /\
    decode M [5; 1; x] =
      Ok {| code := Some 5;
            name := Map_get same_value_zero (codes M) (of_Z 5);
            length := Some 1; digest := [x] |} /\
    (Map_get same_value_zero (codes M) (of_Z 5) = None ->
     exists r, decode M [5; 1; x] = Ok r /\ name r = None).
Proof.
  split; [reflexivity | ]. split; [reflexivity | ].
  intros x.
  assert (V : validate M (VBuf [5; 1; x]) = None).
  { apply (validate_valid_envelope M 5 [x]); [ | simpl; lia].
    right. unfold application_code. lia. }
  split; [exact V | ]. split; [apply decode_ok; exact V | ].
  intros Hn. eexists. split; [apply decode_ok; exact V | exact Hn].
Qed.

Lemma application_code_envelope_witness :
  exists r, decode empty_module [5; 1; 0xab] = Ok r /\ name r = None.
Proof.
  apply (proj2 (proj2 (proj2 (application_code_envelope empty_module))
                  0xab)).
  reflexivity.
Defined.

(** ** C6 *)

(** C6: on every byte sequence, whatever the tables hold, [decode] fails
    with a failure exactly when [validate] reports that failure; when
    [validate] reports none, the sequence is a code byte, a length byte
    and exactly that many digest bytes, and [decode] returns the record of
    byte 0, the code table's name for byte 0 (which can be missing only
    when byte 0 is an application code), byte 1 and the remaining
    bytes. *)
Theorem decode_follows_validate (M : Module) (b : Buffer) :
  (forall e, decode M b = Err e <-> validate M (VBuf b) = Some e) /\
  (validate M (VBuf b) = None ->
   exists c l d,
     b = c :: l :: d /\
     Z.of_nat (List.length d) = l /\
     decode M b =
       Ok {| code := Some c;
             name := Map_get same_value_zero (codes M) (of_Z c);
             length := Some l; digest := d |} /\
     (Map_get same_value_zero (codes M) (of_Z c) = None ->
      application_code c)).
Proof.
  split.
  - intros e. split.
    + unfold decode. destruct (validate M (VBuf b)) as [e' | ].
      * intros H; inversion H; reflexivity.
      * discriminate.
    + apply decode_err.
  - intros H.
    destruct (validate_none_shape M b H) as (c & l & d & -> & _ & Hc & Hl).
    exists c, l, d. split; [reflexivity | ]. split; [exact Hl | ].
    split; [apply decode_ok; exact H | ].
    intros Hn. destruct Hc as [(n & E & _) | Ha]; [congruence | exact Ha].
Qed.

Lemma decode_follows_validate_witness :
  exists c l d,
    [9; 2; 0xca; 0xfe] = c :: l :: d /\
    Z.of_nat (List.length d) = l /\
    decode empty_module [9; 2; 0xca; 0xfe] =
      Ok {| code := Some c;
            name := Map_get same_value_zero (codes empty_module) (of_Z c);
            length := Some l; digest := d |} /\
    (Map_get same_value_zero (codes empty_module) (of_Z c) = None ->
     application_code c).
Proof.
  apply (proj2 (decode_follows_validate empty_module [9; 2; 0xca; 0xfe])).
  reflexivity.
Defined.

(** ** C7 *)

(** C7, as stated, fails for an explicit length that is falsy: with a
    three-byte digest and the application code 5, the lengths 0 and NaN
    differ from the digest's length, and [encode] returns the envelope
    instead of failing, whatever the tables hold. *)
Lemma encode_zero_length_accepted :
  0 <> Buffer_length [1; 2; 3] /\
  (forall M,
      encode M (VBuf [1; 2; 3]) (VNum (of_Z 5)) (VNum (of_Z 0))
      = Ok [5; 3; 1; 2; 3]) /\
  (forall M,
      encode M (VBuf [1; 2; 3]) (VNum (of_Z 5)) (VNum NaN)
      = Ok [5; 3; 1; 2; 3]) /\
  ~ (exists M,
        encode M (VBuf [1; 2; 3]) (VNum (of_Z 5)) (VNum (of_Z 0))
        = Err LengthMismatch).
Proof.
  assert (A : forall M len,
             truthy len = false ->
             encode M (VBuf [1; 2; 3]) (VNum (of_Z 5)) len
             = Ok [5; 3; 1; 2; 3]).
  { intros M len Hl.
    rewrite (encode_buffer M [1; 2; 3] (VNum (of_Z 5)) (of_Z 5) len eq_refl).
    - rewrite (resulting_length_falsy _ _ Hl). reflexivity.
    - apply coerceCode_valid. right. unfold application_code. lia. }
  split; [discriminate | ].
  split; [intros M; apply A; reflexivity | ].
  split; [intros M; apply A; reflexivity | ].
  intros [M H]. rewrite A in H by reflexivity. discriminate H.
Qed.

(** C7, amended: for every digest and every designator that is truthy and
    that [coerceCode] accepts, [encode] given a length that is truthy
    (neither 0 nor NaN, for a number) and is not the digest's byte length
    fails with LengthMismatch; in particular [encode(digest, 0x11, 5)]
    does, where 0x11 is an accepted code, whenever the digest's length is
    not 5. *)
Theorem encode_length_mismatch :
  (forall (M : Module) (d : Buffer) (hashfn : value) (c : number)
          (len : value),
      truthy hashfn = true ->
      coerceCode M hashfn = Ok c ->
      truthy len = true ->
      strict_neq_number (of_Z (Buffer_length d)) len = true ->
      encode M (VBuf d) hashfn len = Err LengthMismatch) /\
  (forall (M : Module) (d : Buffer) (c : number),
      coerceCode M (VNum (of_Z 0x11)) = Ok c ->
      Buffer_length d <> 5 ->
      encode M (VBuf d) (VNum (of_Z 0x11)) (VNum (of_Z 5))
      = Err LengthMismatch).
Proof.
  assert (G : forall (M : Module) (d : Buffer) (hashfn : value) (c : number)
                     (len : value),
             truthy hashfn = true ->
             coerceCode M hashfn = Ok c ->
             truthy len = true ->
             strict_neq_number (of_Z (Buffer_length d)) len = true ->
             encode M (VBuf d) hashfn len = Err LengthMismatch).
  { intros M d hashfn c len Ht Hc Hl Hn.
    rewrite (encode_buffer M d hashfn c len Ht Hc).
    rewrite (proj2 (resulting_length_none d len) (conj Hl Hn)).
    reflexivity. }
  split; [exact G | ].
  intros M d c Hc Hd. apply (G M d (VNum (of_Z 0x11)) c);
    [reflexivity | exact Hc | reflexivity | ].
  cbn [strict_neq_number]. rewrite strict_eq_of_Z.
  destruct (Z.eqb_spec (Buffer_length d) 5); [contradiction | reflexivity].
Qed.

Lemma encode_length_mismatch_witness :
  encode empty_module (VBuf [1; 2; 3]) (VNum (of_Z 4)) (VNum (of_Z 7))
  = Err LengthMismatch.
Proof.
  apply (proj1 encode_length_mismatch empty_module [1; 2; 3]
           (VNum (of_Z 4)) (of_Z 4) (VNum (of_Z 7)));
    reflexivity.
Defined.

(** ** C8 *)




(** ** C9 *)

(** C9: whatever the tables hold, a byte sequence on which [validate]
    reports no failure has 2 plus the value of its byte 1 for total
    length, that total length lies in [3, 129], and its byte 1 lies in
    [1, 127]. *)
Theorem validate_ok_length (M : Module) (b : Buffer) :
  validate M (VBuf b) = None ->
  exists l,
    Buffer_get b 1 = Some l /\
    Buffer_length b = 2 + l /\
    3 <= Buffer_length b <= 129 /\
    1 <= l <= 127.
Proof.
  intros H.
  destruct (validate_none_shape M b H) as (c & l & d & -> & Hb & _ & Hl).
  exists l. unfold Buffer_length, Buffer_get.
  cbn [List.length nth_error] in Hb |- *.
  split; [reflexivity | ]. lia.
Qed.

Lemma validate_ok_length_witness :
  exists l,
    Buffer_get [0xf; 3; 1; 2; 3] 1 = Some l /\
    Buffer_length [0xf; 3; 1; 2; 3] = 2 + l /\
    3 <= Buffer_length [0xf; 3; 1; 2; 3] <= 129 /\
    1 <= l <= 127.
Proof.
  apply (validate_ok_length empty_module [0xf; 3; 1; 2; 3]). reflexivity.
Defined.

(** ** C10 *)

(** C10: whatever the tables hold, for every application code c in 1..15
    [encode] of the empty digest succeeds with the two bytes [[c; 0]];
    [validate] reports TooShort on every sequence of fewer than 3 bytes,
    on [[c; 0]] too, and [decode] fails on it with that failure; so some
    successful output of [encode] is not decodable. *)
Theorem encode_empty_digest_undecodable (M : Module) :
  (forall c : Z,
      application_code c ->
      encode M (VBuf []) (VNum (of_Z c)) VUndefined = Ok [c; 0] /\
      validate M (VBuf [c; 0]) = Some TooShort /\
      decode M [c; 0] = Err TooShort) /\
  (forall b : Buffer,
      (List.length b < 3)%nat -> validate M (VBuf b) = Some TooShort) /\
  (exists (d : Buffer) (hashfn : value) (out : Buffer) (e : Error),
      encode M (VBuf d) hashfn VUndefined = Ok out /\ decode M out = Err e).
Proof.
  assert (E : forall c : Z,
             application_code c ->
             encode M (VBuf []) (VNum (of_Z c)) VUndefined = Ok [c; 0]).
  { intros c Hc.
    assert (Ht : truthy (VNum (of_Z c)) = true).
    { cbn [truthy]. rewrite truthy_number_of_Z. unfold application_code in Hc.
      destruct (Z.eqb_spec c 0); [lia | reflexivity]. }
    rewrite (encode_buffer M [] (VNum (of_Z c)) (of_Z c) VUndefined Ht
               (coerceCode_valid M c (or_intror Hc))).
    rewrite resulting_length_falsy by reflexivity.
    rewrite ToUint8_byte by (unfold application_code in Hc; lia).
    reflexivity. }
  split; [ | split].
  - intros c Hc. split; [apply E; exact Hc | split; reflexivity].
  - apply validate_short.
  - exists [], (VNum (of_Z 5)), [5; 0], TooShort. split; [ | reflexivity].
    apply E. unfold application_code. lia.
Qed.

Lemma encode_empty_digest_undecodable_witness :
  encode empty_module (VBuf []) (VNum (of_Z 7)) VUndefined = Ok [7; 0] /\
  validate empty_module (VBuf [7; 0]) = Some TooShort /\
  decode empty_module [7; 0] = Err TooShort.
Proof.
  apply (proj1 (encode_empty_digest_undecodable empty_module) 7).
  unfold application_code; lia.
Defined.

(** * Further properties *)

(** ** invert *)

(** [get] after [set], for a key equality that decides equality. *)
Section MapFacts.
Variables K V : Type.
Variable eqb : K -> K -> bool.
Hypothesis eqb_eq : forall a b, eqb a b = true <-> a = b.

Lemma Map_get_set_same (m : Map K V) (k : K) (v : V) :
  Map_get eqb (Map_set eqb m k v) k = Some v.
Proof.
  induction m as [ | [k' v'] m IH]; simpl.
  - rewrite (proj2 (eqb_eq k k) eq_refl). reflexivity.
  - destruct (eqb k' k) eqn:E; simpl; rewrite E; [reflexivity | exact IH].
Qed.

Lemma Map_get_set_other (m : Map K V) (k k0 : K) (v : V) :
  k <> k0 -> Map_get eqb (Map_set eqb m k v) k0 = Map_get eqb m k0.
Proof.
  intros Hk. induction m as [ | [k' v'] m IH]; simpl.
  - destruct (eqb k k0) eqn:E; [ | reflexivity].
    apply eqb_eq in E. contradiction.
  - destruct (eqb k' k) eqn:E; simpl.
    + apply eqb_eq in E. subst k'.
      destruct (eqb k k0) eqn:E0; [ | reflexivity].
      apply eqb_eq in E0. contradiction.
    + rewrite IH. reflexivity.
Qed.
End MapFacts.

Section InvertFacts.
Variables K V : Type.
Variable eqK : K -> K -> bool.
Variable eqV : V -> V -> bool.
Hypothesis eqK_eq : forall a b, eqK a b = true <-> a = b.
Hypothesis eqV_eq : forall a b, eqV a b = true <-> a = b.
Variable m : Map K V.

(** The body of the loop of [invert]. *)
Let step (reverse : Map V K) (key : K) : Map V K :=
  match Map_get eqK m key with
  | Some v => Map_set eqV reverse v key
  | None => reverse
  end.

Lemma Map_get_set_cases (r : Map V K) (v0 v : V) (k0 : K) :
  Map_get eqV (Map_set eqV r v0 k0) v =
    if eqV v0 v then Some k0 else Map_get eqV r v.
Proof.
  destruct (eqV v0 v) eqn:E.
  - apply eqV_eq in E. subst v. apply Map_get_set_same. exact eqV_eq.
  - apply Map_get_set_other; [exact eqV_eq | ].
    intros ->. rewrite (proj2 (eqV_eq v v) eq_refl) in E. discriminate.
Qed.

Lemma Map_get_in_keys (k : K) (v : V) :
  Map_get eqK m k = Some v -> In k (Map_keys m).
Proof.
  unfold Map_keys. induction m as [ | [k' v'] m' IH]; simpl; [discriminate | ].
  destruct (eqK k' k) eqn:E.
  - apply eqK_eq in E. intros _. left. exact E.
  - intros H. right. apply IH. exact H.
Qed.

(** Every entry the loop writes pairs a value with a key that has it. *)
Lemma invert_loop_sound (ks : list K) (r : Map V K) :
  (forall v k, Map_get eqV r v = Some k -> Map_get eqK m k = Some v) ->
  forall v k,
    Map_get eqV (fold_left step ks r) v = Some k -> Map_get eqK m k = Some v.
Proof.
  revert r. induction ks as [ | key ks IH]; intros r Hr; [exact Hr | ].
  simpl. apply IH. intros v k. unfold step.
  destruct (Map_get eqK m key) as [v0 | ] eqn:E; [ | apply Hr].
  rewrite Map_get_set_cases. destruct (eqV v0 v) eqn:Ev; [ | apply Hr].
  apply eqV_eq in Ev. intros H. inversion H. subst. exact E.
Qed.

(** The loop never removes an entry. *)
Lemma invert_loop_keeps (ks : list K) (r : Map V K) (v : V) :
  Map_get eqV r v <> None -> Map_get eqV (fold_left step ks r) v <> None.
Proof.
  revert r. induction ks as [ | key ks IH]; intros r Hr; [exact Hr | ].
  simpl. apply IH. unfold step.
  destruct (Map_get eqK m key) as [v0 | ]; [ | exact Hr].
  rewrite Map_get_set_cases. destruct (eqV v0 v); [discriminate | exact Hr].
Qed.

Lemma invert_loop_complete (ks : list K) (r : Map V K) (k : K) (v : V) :
  In k ks -> Map_get eqK m k = Some v ->
  Map_get eqV (fold_left step ks r) v <> None.
Proof.
  revert r. induction ks as [ | key ks IH]; intros r Hin Hk; [contradiction | ].
  simpl. destruct Hin as [-> | Hin].
  - apply invert_loop_keeps. unfold step. rewrite Hk, Map_get_set_cases.
    rewrite (proj2 (eqV_eq v v) eq_refl). discriminate.
  - apply IH; assumption.
Qed.

(** Whatever the inverted map returns for a value is a key that the map
    sends to that value. *)
Lemma invert_get_sound (v : V) (k : K) :
  Map_get eqV (invert eqK eqV m) v = Some k -> Map_get eqK m k = Some v.
Proof.
  unfold invert. apply (invert_loop_sound (Map_keys m) []).
  simpl. discriminate.
Qed.

(** A value that some key has is a key of the inverted map. *)
Lemma invert_get_complete (k : K) (v : V) :
  Map_get eqK m k = Some v ->
  exists k', Map_get eqV (invert eqK eqV m) v = Some k'.
Proof.
  intros H.
  pose proof (invert_loop_complete (Map_keys m) [] k v
                (Map_get_in_keys k v H) H) as Hc.
  fold (invert eqK eqV m) in Hc.
  destruct (Map_get eqV (invert eqK eqV m) v) as [k' | ] eqn:E;
    [exists k'; reflexivity | contradiction].
Qed.
End InvertFacts.

Lemma reference_entries_injective (n1 n2 : string) (c : Z) :
  Map_get String.eqb reference_entries n1 = Some c ->
  Map_get String.eqb reference_entries n2 = Some c -> n1 = n2.
Proof.
  unfold reference_entries. cbn [Map_get]. intros H1 H2.
  repeat match type of H1 with
         | context [String.eqb ?a ?b] => destruct (String.eqb_spec a b)
         end;
    try discriminate H1; inversion H1; subst c; subst n1;
    repeat match type of H2 with
           | context [String.eqb ?a ?b] => destruct (String.eqb_spec a b)
           end;
    try discriminate H2; subst n2; reflexivity.
Qed.

(** X1: inverting a map loses no value and invents no entry: what the
    inverted map returns for a value is a key that the map sends to that
    value, and every value that some key has is a key of the inverted map,
    sent to a key holding it. *)
Theorem invert_lookup_correct (K V : Type)
  (eqK : K -> K -> bool) (eqV : V -> V -> bool)
  (eqK_eq : forall a b, eqK a b = true <-> a = b)
  (eqV_eq : forall a b, eqV a b = true <-> a = b)
  (m : Map K V) :
  (forall v k,
      Map_get eqV (invert eqK eqV m) v = Some k -> Map_get eqK m k = Some v)
  /\ (forall k v,
         Map_get eqK m k = Some v ->
         exists k', Map_get eqV (invert eqK eqV m) v = Some k'
                    /\ Map_get eqK m k' = Some v).
Proof.
  split.
  - intros v k. apply (invert_get_sound K V eqK eqV eqV_eq m v k).
  - intros k v H.
    destruct (invert_get_complete K V eqK eqV eqK_eq eqV_eq m k v H)
      as [k' Hk'].
    exists k'. split; [exact Hk' | ].
    exact (invert_get_sound K V eqK eqV eqV_eq m v k' Hk').
Qed.

Lemma invert_lookup_correct_witness :
  exists n, Map_get Z.eqb (invert String.eqb Z.eqb reference_entries) 0x13
            = Some n
            /\ Map_get String.eqb reference_entries n = Some 0x13.
Proof.
  apply (proj2 (invert_lookup_correct string Z String.eqb Z.eqb
                  String.eqb_eq Z.eqb_eq reference_entries) "sha2-512" 0x13).
  reflexivity.
Defined.

(** X2: on a map in which no two keys hold the same value, inverting swaps
    the two sides of every lookup: the inverted map sends v to k exactly
    when the map sends k to v. *)
Theorem invert_inverse (K V : Type)
  (eqK : K -> K -> bool) (eqV : V -> V -> bool)
  (eqK_eq : forall a b, eqK a b = true <-> a = b)
  (eqV_eq : forall a b, eqV a b = true <-> a = b)
  (m : Map K V) :
  (forall k1 k2 v,
      Map_get eqK m k1 = Some v -> Map_get eqK m k2 = Some v -> k1 = k2) ->
  forall k v,
    Map_get eqV (invert eqK eqV m) v = Some k <-> Map_get eqK m k = Some v.
Proof.
  intros Hinj k v. split.
  - apply (invert_get_sound K V eqK eqV eqV_eq m v k).
  - intros H.
    destruct (invert_get_complete K V eqK eqV eqK_eq eqV_eq m k v H)
      as [k' Hk'].
    rewrite Hk'. f_equal. apply (Hinj k' k v); [ | exact H].
    exact (invert_get_sound K V eqK eqV eqV_eq m v k' Hk').
Qed.

Lemma invert_inverse_witness :
  Map_get Z.eqb (invert String.eqb Z.eqb reference_entries) 0x41
  = Some "blake2s".
Proof.
  apply (proj2 (invert_inverse string Z String.eqb Z.eqb
                  String.eqb_eq Z.eqb_eq reference_entries
                  reference_entries_injective "blake2s" 0x41)).
  reflexivity.
Defined.

(** X3: an inverted map never holds the same key of the original under
    two values, whatever the original map. *)
Theorem invert_injective (K V : Type)
  (eqK : K -> K -> bool) (eqV : V -> V -> bool)
  (eqV_eq : forall a b, eqV a b = true <-> a = b)
  (m : Map K V) (v1 v2 : V) (k : K) :
  Map_get eqV (invert eqK eqV m) v1 = Some k ->
  Map_get eqV (invert eqK eqV m) v2 = Some k ->
  v1 = v2.
Proof.
  intros H1 H2.
  apply (invert_get_sound K V eqK eqV eqV_eq m v1 k) in H1.
  apply (invert_get_sound K V eqK eqV eqV_eq m v2 k) in H2.
  congruence.
Qed.

Lemma invert_injective_witness : 0x11 = 0x11.
Proof.
  apply (invert_injective string Z String.eqb Z.eqb Z.eqb_eq
           [("a", 0x11); ("b", 0x11)] 0x11 0x11 "b");
    reflexivity.
Defined.

(** X4: inverting twice gives back the lookups of the map, when no two of
    its keys hold the same value. *)
Theorem invert_twice (K V : Type)
  (eqK : K -> K -> bool) (eqV : V -> V -> bool)
  (eqK_eq : forall a b, eqK a b = true <-> a = b)
  (eqV_eq : forall a b, eqV a b = true <-> a = b)
  (m : Map K V) :
  (forall k1 k2 v,
      Map_get eqK m k1 = Some v -> Map_get eqK m k2 = Some v -> k1 = k2) ->
  forall k v,
    Map_get eqK (invert eqV eqK (invert eqK eqV m)) k = Some v
    <-> Map_get eqK m k = Some v.
Proof.
  intros Hinj k v. split.
  - intros H.
    apply (invert_get_sound V K eqV eqK eqK_eq) in H.
    exact (invert_get_sound K V eqK eqV eqV_eq m v k H).
  - intros H.
    destruct (invert_get_complete K V eqK eqV eqK_eq eqV_eq m k v H)
      as [k' Hk'].
    assert (k' = k) as ->.
    { apply (Hinj k' k v); [ | exact H].
      exact (invert_get_sound K V eqK eqV eqV_eq m v k' Hk'). }
    destruct (invert_get_complete V K eqV eqK eqV_eq eqK_eq
                (invert eqK eqV m) v k Hk') as [v' Hv'].
    rewrite Hv'. f_equal.
    apply (invert_get_sound V K eqV eqK eqK_eq) in Hv'.
    apply (invert_get_sound K V eqK eqV eqV_eq) in Hv'.
    congruence.
Qed.

Lemma invert_twice_witness :
  Map_get String.eqb
    (invert Z.eqb String.eqb (invert String.eqb Z.eqb reference_entries))
    "sha3" = Some 0x14.
Proof.
  apply (proj2 (invert_twice string Z String.eqb Z.eqb
                  String.eqb_eq Z.eqb_eq reference_entries
                  reference_entries_injective "sha3" 0x14)).
  reflexivity.
Defined.

(** ** coerceCode *)

Lemma coerceCode_number (M : Module) (c : number) :
  coerceCode M (VNum c) =
    if negb (truthy_str (Map_get same_value_zero (codes M) c))
       && negb (isAppCode c)
    then Err UnrecognizedCode else Ok c.
Proof. reflexivity. Qed.

Lemma coerceCode_string (M : Module) (s : string) :
  coerceCode M (VStr s) =
    match Map_get String.eqb (names M) s with
    | Some c => if truthy_number c then coerceCode M (VNum c)
                else Err UnknownHashName
    | None => Err UnknownHashName
    end.
Proof.
  unfold coerceCode.
  destruct (Map_get String.eqb (names M) s) as [c | ]; cbn [truthy_num];
    [ | reflexivity].
  destruct (truthy_number c); reflexivity.
Qed.

(** X5: [coerceCode] succeeds in two ways only: on a number, returned as
    it is, and on a string that the name table maps to a truthy number,
    which is returned; in both the number returned has a non-empty name in
    the code table or is strictly between 0 and 16, integer or not. *)
Theorem coerceCode_ok_iff (M : Module) (hashfn : value) (c : number) :
  coerceCode M hashfn = Ok c <->
  (truthy_str (Map_get same_value_zero (codes M) c) = true
   \/ isAppCode c = true)
  /\ (hashfn = VNum c
      \/ exists s, hashfn = VStr s
                   /\ Map_get String.eqb (names M) s = Some c
                   /\ truthy_number c = true).
Proof.
  assert (N : forall n,
             coerceCode M (VNum n) = Ok c <->
             (truthy_str (Map_get same_value_zero (codes M) c) = true
              \/ isAppCode c = true) /\ n = c).
  { intros n. rewrite coerceCode_number. split.
    - destruct (truthy_str (Map_get same_value_zero (codes M) n)) eqn:E1;
        destruct (isAppCode n) eqn:E2; cbn [negb andb]; intros H;
        try discriminate H; inversion H; subst; split; tauto.
    - intros [[H | H] ->]; rewrite H; cbn [negb andb];
        [ | rewrite andb_false_r]; reflexivity. }
  split.
  - intros H. destruct hashfn as [ | | b | n | s | b | | p];
      try (unfold coerceCode in H; cbn in H;
           try destruct p; discriminate H).
    + apply N in H. destruct H as [H ->]. split; [exact H | left; reflexivity].
    + rewrite coerceCode_string in H.
      destruct (Map_get String.eqb (names M) s) as [k | ] eqn:En;
        [ | discriminate H].
      destruct (truthy_number k) eqn:Tk; [ | discriminate H].
      apply N in H. destruct H as [H ->]. split; [exact H | ].
      right. exists s. repeat split; assumption.
  - intros [Ht [-> | (s & -> & Hs & Tc)]].
    + apply N. split; [exact Ht | reflexivity].
    + rewrite coerceCode_string, Hs, Tc. apply N.
      split; [exact Ht | reflexivity].
Qed.

Lemma coerceCode_ok_iff_witness :
  coerceCode empty_module (VNum (of_Z 9)) = Ok (of_Z 9).
Proof.
  apply (proj2 (coerceCode_ok_iff empty_module (VNum (of_Z 9)) (of_Z 9))).
  split; [right; reflexivity | left; reflexivity].
Defined.

Lemma coerceCode_err_inv (M : Module) (hashfn : value) (e : Error) :
  coerceCode M hashfn = Err e ->
  match hashfn with
  | VStr _ => e = UnknownHashName \/ e = UnrecognizedCode
  | VNum _ => e = UnrecognizedCode
  | VSymbol | VObject false => e = TypeError
  | _ => e = InvalidCodeType
  end.
Proof.
  intros H. destruct hashfn as [ | | b | n | s | b | | p];
    try (inversion H; reflexivity).
  - rewrite coerceCode_number in H.
    destruct (negb _ && negb _); inversion H; reflexivity.
  - rewrite coerceCode_string in H.
    destruct (Map_get String.eqb (names M) s) as [k | ];
      [ | inversion H; left; reflexivity].
    destruct (truthy_number k); [ | inversion H; left; reflexivity].
    rewrite coerceCode_number in H.
    destruct (negb _ && negb _); inversion H; right; reflexivity.
  - destruct p; inversion H; reflexivity.
Qed.

(** X6: the failure of [coerceCode] is fixed by the type of the
    designator: a string fails with UnknownHashName or UnrecognizedCode, a
    number with UnrecognizedCode only; what is neither always fails, with
    a TypeError for a symbol or an object that cannot be converted to a
    string (the message cannot be built) and with InvalidCodeType
    otherwise. *)
Theorem coerceCode_failure_by_type (M : Module) (hashfn : value) :
  (forall e, coerceCode M hashfn = Err e ->
             match hashfn with
             | VStr _ => e = UnknownHashName \/ e = UnrecognizedCode
             | VNum _ => e = UnrecognizedCode
             | VSymbol | VObject false => e = TypeError
             | _ => e = InvalidCodeType
             end)
  /\ ((forall s, hashfn <> VStr s) -> (forall n, hashfn <> VNum n) ->
      coerceCode M hashfn =
        Err (if concatenable hashfn then InvalidCodeType else TypeError)).
Proof.
  split; [intros e; apply coerceCode_err_inv | ].
  intros Hs Hn. destruct hashfn as [ | | b | n | s | b | | p];
    try reflexivity.
  - exfalso; exact (Hn n eq_refl).
  - exfalso; exact (Hs s eq_refl).
  - destruct p; reflexivity.
Qed.

Lemma coerceCode_failure_by_type_witness :
  coerceCode empty_module VSymbol =
    Err (if concatenable VSymbol then InvalidCodeType else TypeError).
Proof.
  apply (proj2 (coerceCode_failure_by_type empty_module VSymbol));
    discriminate.
Defined.

(** X7: a number that [coerceCode] returns is accepted by [coerceCode]
    unchanged. *)
Theorem coerceCode_idempotent (M : Module) (hashfn : value) (c : number) :
  coerceCode M hashfn = Ok c -> coerceCode M (VNum c) = Ok c.
Proof.
  intros H. rewrite coerceCode_number, (coerceCode_ok_test M hashfn c H).
  reflexivity.
Qed.

Lemma coerceCode_idempotent_witness :
  coerceCode reference_module (VNum (of_Z 0x40)) = Ok (of_Z 0x40).
Proof.
  apply (coerceCode_idempotent reference_module (VStr "blake2b") (of_Z 0x40)).
  reflexivity.
Defined.

(** ** encode, further *)

Lemma resulting_length_cases (d : Buffer) (len : value) :
  resulting_length d len <> None <->
  truthy len = false
  \/ exists n, len = VNum n /\ strict_eq (of_Z (Buffer_length d)) n = true.
Proof.
  unfold resulting_length. destruct (truthy len) eqn:T; cbn [negb].
  - destruct len as [ | | x | n | s | x | | p];
      try (split; [intros H; contradiction
                  | intros [H | (n & H & _)]; discriminate H]).
    destruct (strict_eq (of_Z (Buffer_length d)) n) eqn:E; split.
    + intros _. right. exists n. split; [reflexivity | exact E].
    + discriminate.
    + intros H; contradiction.
    + intros [H | (m & H & Hm)]; [discriminate H | ].
      inversion H; subst. congruence.
  - split; [intros _; left; reflexivity | discriminate].
Qed.

Lemma encode_ok_inv (M : Module) (d hashfn len : value) (out : Buffer) :
  encode M d hashfn len = Ok out ->
  exists b c,
    d = VBuf b /\ truthy hashfn = true /\ coerceCode M hashfn = Ok c /\
    Buffer_length b <= 127 /\
    resulting_length b len <> None /\
    out = ToUint8 c :: Buffer_length b :: b.
Proof.
  intros H. pose proof H as H0. unfold encode in H.
  destruct (truthy hashfn) eqn:Th;
    [ | rewrite orb_true_r in H; discriminate H].
  destruct (negb (truthy d) || negb true); [discriminate H | ].
  destruct (coerceCode M hashfn) as [c | e] eqn:Ec; [ | discriminate H].
  cbn [bind] in H. destruct d as [ | | x | n | s | b | | p];
    try discriminate H.
  clear H. exists b, c. split; [reflexivity | ]. split; [reflexivity | ].
  split; [reflexivity | ].
  rewrite (encode_buffer M b hashfn c len Th Ec) in H0.
  destruct (resulting_length b len) as [n | ]; [ | discriminate H0].
  destruct (Z.ltb_spec 127 (Buffer_length b)); [discriminate H0 | ].
  inversion H0. split; [assumption | ]. split; [discriminate | reflexivity].
Qed.

Lemma encode_ok_intro (M : Module) (b : Buffer) (hashfn : value) (c : number)
  (len : value) :
  truthy hashfn = true ->
  coerceCode M hashfn = Ok c ->
  Buffer_length b <= 127 ->
  resulting_length b len <> None ->
  encode M (VBuf b) hashfn len = Ok (ToUint8 c :: Buffer_length b :: b).
Proof.
  intros Ht Hc Hb Hl. rewrite (encode_buffer M b hashfn c len Ht Hc).
  destruct (resulting_length b len); [ | contradiction].
  destruct (Z.ltb_spec 127 (Buffer_length b)); [lia | reflexivity].
Qed.

(** X8: [encode] succeeds exactly when the digest is a Buffer of at most
    127 bytes, the designator is truthy and one [coerceCode] accepts, and
    the length is falsy (omitted, 0, NaN, ...) or the number equal to the
    digest's byte length; its output is then the byte of the resolved
    code (its integer part modulo 256), the digest's byte length and the
    digest's bytes. *)
Theorem encode_ok_iff (M : Module) (d hashfn len : value) (out : Buffer) :
  encode M d hashfn len = Ok out <->
  exists b c,
    d = VBuf b /\ truthy hashfn = true /\ coerceCode M hashfn = Ok c /\
    Buffer_length b <= 127 /\
    (truthy len = false
     \/ exists n, len = VNum n
                  /\ strict_eq (of_Z (Buffer_length b)) n = true) /\
    out = ToUint8 c :: Buffer_length b :: b.
Proof.
  split.
  - intros H.
    destruct (encode_ok_inv M d hashfn len out H)
      as (b & c & Hd & Ht & Hc & Hb & Hl & Ho).
    exists b, c. apply resulting_length_cases in Hl. tauto.
  - intros (b & c & -> & Ht & Hc & Hb & Hl & ->).
    apply encode_ok_intro; try assumption.
    apply resulting_length_cases. exact Hl.
Qed.

Lemma encode_ok_iff_witness :
  encode empty_module (VBuf [7; 8; 9]) (VNum (of_Z 4)) (VNum (of_Z 3))
  = Ok [4; 3; 7; 8; 9].
Proof.
  apply (proj2 (encode_ok_iff empty_module (VBuf [7; 8; 9]) (VNum (of_Z 4))
                  (VNum (of_Z 3)) [4; 3; 7; 8; 9])).
  exists [7; 8; 9], (of_Z 4). split; [reflexivity | ].
  split; [reflexivity | ]. split; [reflexivity | ].
  split; [vm_compute; discriminate | ].
  split; [right; exists (of_Z 3); split; reflexivity | reflexivity].
Defined.

(** X9: [encode] fails only with MissingArguments, one of the failures of
    [coerceCode] (UnknownHashName, InvalidCodeType, UnrecognizedCode, or
    the TypeError of a designator that cannot be converted to a string),
    InvalidDigestType, LengthMismatch or LengthTooLarge, never with a
    failure of [validate]. *)
Theorem encode_failure_kinds (M : Module) (d hashfn len : value) (e : Error) :
  encode M d hashfn len = Err e ->
  In e [ MissingArguments; UnknownHashName; InvalidCodeType;
         UnrecognizedCode; TypeError; InvalidDigestType; LengthMismatch;
         LengthTooLarge ].
Proof.
  intros H. unfold encode in H.
  destruct (negb (truthy d) || negb (truthy hashfn));
    [inversion H; simpl; tauto | ].
  destruct (coerceCode M hashfn) as [c | e'] eqn:Ec; cbn [bind] in H.
  - destruct d as [ | | x | n | s | b | | p];
      try (inversion H; simpl; tauto).
    cbv zeta in H.
    destruct (truthy _ && strict_neq_number _ _);
      [inversion H; simpl; tauto | ].
    destruct (if negb (truthy len) then _ else _);
      try (inversion H; simpl; tauto).
    destruct (number_gtb _ _); [inversion H; simpl; tauto | discriminate H].
  - inversion H; subst e'.
    pose proof (coerceCode_err_inv M hashfn e Ec) as K.
    destruct hashfn as [ | | b | n | s | b | | [ | ]];
      try destruct K as [K | K]; subst e; simpl; tauto.
Qed.

Lemma encode_failure_kinds_witness :
  In TypeError
     [ MissingArguments; UnknownHashName; InvalidCodeType;
       UnrecognizedCode; TypeError; InvalidDigestType; LengthMismatch;
       LengthTooLarge ].
Proof.
  apply (encode_failure_kinds empty_module (VBuf [1]) VSymbol VUndefined
           TypeError).
  reflexivity.
Defined.

(** X10: the length argument of [encode] is a check and nothing more: a
    falsy length and the digest's byte length give the result of the
    call without a length, and whenever [encode] succeeds with a length it
    returns the same bytes without one. *)
Theorem encode_length_only_checks (M : Module) (b : Buffer) (hashfn : value) :
  (forall len,
      truthy len = false ->
      encode M (VBuf b) hashfn len = encode M (VBuf b) hashfn VUndefined) /\
  encode M (VBuf b) hashfn (VNum (of_Z (Buffer_length b))) =
    encode M (VBuf b) hashfn VUndefined /\
  (forall len out,
      encode M (VBuf b) hashfn len = Ok out ->
      encode M (VBuf b) hashfn VUndefined = Ok out).
Proof.
  split; [ | split].
  - intros len Hl. unfold encode. rewrite Hl. reflexivity.
  - unfold encode. cbn [truthy negb].
    replace (if negb (truthy_number (of_Z (Buffer_length b)))
             then VNum (of_Z (Buffer_length b))
             else VNum (of_Z (Buffer_length b)))
      with (VNum (of_Z (Buffer_length b)))
      by (destruct (truthy_number (of_Z (Buffer_length b))); reflexivity).
    reflexivity.
  - intros len out H.
    destruct (encode_ok_inv M _ _ _ _ H)
      as (b' & c & Eb & Ht & Hc & Hb & _ & ->).
    inversion Eb; subst b'.
    apply encode_ok_intro; try assumption. discriminate.
Qed.

Lemma encode_length_only_checks_witness :
  encode empty_module (VBuf [1; 2]) (VNum (of_Z 3)) VUndefined
  = Ok [3; 2; 1; 2].
Proof.
  apply (proj2 (proj2 (encode_length_only_checks empty_module [1; 2]
                         (VNum (of_Z 3))))
           (VNum (of_Z 2)) [3; 2; 1; 2]).
  reflexivity.
Defined.

(** X12: two calls of [encode] that return the same bytes were given the
    same digest, and designators whose resolved codes are stored as the
    same byte. *)
Theorem encode_injective (M : Module) (d1 d2 h1 h2 l1 l2 : value)
  (out : Buffer) :
  encode M d1 h1 l1 = Ok out ->
  encode M d2 h2 l2 = Ok out ->
  d1 = d2 /\
  exists c1 c2, coerceCode M h1 = Ok c1 /\ coerceCode M h2 = Ok c2 /\
                ToUint8 c1 = ToUint8 c2.
Proof.
  intros H1 H2.
  destruct (encode_ok_inv M _ _ _ _ H1)
    as (b1 & c1 & -> & _ & Hc1 & _ & _ & E1).
  destruct (encode_ok_inv M _ _ _ _ H2)
    as (b2 & c2 & -> & _ & Hc2 & _ & _ & E2).
  rewrite E1 in E2. injection E2 as Ec _ Eb. split; [congruence | ].
  exists c1, c2. repeat split; assumption.
Qed.

Lemma encode_injective_witness :
  VBuf [0xaa] = VBuf [0xaa] /\
  exists c1 c2,
    coerceCode empty_module (VNum (of_Z 1)) = Ok c1 /\
    coerceCode empty_module (VNum (Finite (3 # 2))) = Ok c2 /\
    ToUint8 c1 = ToUint8 c2.
Proof.
  apply (encode_injective empty_module (VBuf [0xaa]) (VBuf [0xaa])
           (VNum (of_Z 1)) (VNum (Finite (3 # 2))) VUndefined
           (VNum (of_Z 1)) [1; 1; 0xaa]);
    reflexivity.
Defined.

(** X13: what [encode] returns is 2 to 129 bytes long, two more than the
    digest, and passes [validate] exactly when the digest is not empty and
    the code byte written is a valid code (which it can fail to be only
    for a designator that is not an integer from 1 to 255). *)
Theorem encode_output_validates (M : Module) (d hashfn len : value)
  (out : Buffer) :
  encode M d hashfn len = Ok out ->
  exists b c,
    d = VBuf b /\ coerceCode M hashfn = Ok c /\
    Buffer_length out = Buffer_length b + 2 /\
    2 <= Buffer_length out <= 129 /\
    (validate M (VBuf out) = None <-> b <> [] /\ valid_code M (ToUint8 c)).
Proof.
  intros H.
  destruct (encode_ok_inv M _ _ _ _ H)
    as (b & c & -> & _ & Hc & Hb & _ & ->).
  exists b, c. split; [reflexivity | ]. split; [exact Hc | ].
  unfold Buffer_length in *. cbn [List.length].
  split; [lia | ]. split; [lia | ].
  destruct b as [ | x b].
  - split; [intros Hv; discriminate Hv | intros [Hne _]; contradiction].
  - rewrite validate_in_range by (cbn [List.length] in *; lia).
    rewrite Z.eqb_refl. cbn [negb].
    destruct (negb (isAppCode (of_Z (ToUint8 c)))
              && negb (truthy_str
                         (Map_get same_value_zero (codes M)
                            (of_Z (ToUint8 c))))) eqn:E.
    + split; [discriminate | intros [_ Hv]].
      apply validate_code_test in Hv. congruence.
    + apply validate_code_test in E.
      split; [intros _; split; [discriminate | exact E] | reflexivity].
Qed.

Lemma encode_output_validates_witness :
  exists b c,
    VBuf [5; 6] = VBuf b /\
    coerceCode empty_module (VNum (Finite (1 # 2))) = Ok c /\
    Buffer_length [0; 2; 5; 6] = Buffer_length b + 2 /\
    2 <= Buffer_length [0; 2; 5; 6] <= 129 /\
    (validate empty_module (VBuf [0; 2; 5; 6]) = None
     <-> b <> [] /\ valid_code empty_module (ToUint8 c)).
Proof.
  apply (encode_output_validates empty_module (VBuf [5; 6])
           (VNum (Finite (1 # 2))) VUndefined [0; 2; 5; 6]).
  reflexivity.
Defined.

(** ** decode and validate, further *)

Lemma decode_ok_inv (M : Module) (b : Buffer) (r : Decoded) :
  decode M b = Ok r ->
  exists c l d,
    b = c :: l :: d /\ valid_code M c /\ Buffer_length d = l /\
    1 <= l <= 127 /\
    r = {| code := Some c;
           name := Map_get same_value_zero (codes M) (of_Z c);
           length := Some l; digest := d |}.
Proof.
  intros H. destruct (validate M (VBuf b)) as [e | ] eqn:Ev.
  - rewrite (decode_err M b e Ev) in H. discriminate H.
  - destruct (validate_none_shape M b Ev) as (c & l & d & -> & Hb & Hc & Hl).
    rewrite (decode_ok M c l d Ev) in H. inversion H.
    exists c, l, d. cbn [List.length] in Hb. unfold Buffer_length.
    repeat split; try assumption; lia.
Qed.

(** X14: a record that [decode] returns encodes back to the bytes it came
    from, with its code as designator and its digest, whether its length
    is passed along or omitted, provided the code byte is not 0 (a 0 is
    a falsy designator, which [encode] rejects). *)
Theorem decode_then_encode (M : Module) (b : Buffer) (r : Decoded) :
  decode M b = Ok r ->
  exists c l,
    code r = Some c /\ length r = Some l /\
    (1 <= c <= 255 ->
     encode M (VBuf (digest r)) (VNum (of_Z c)) (VNum (of_Z l)) = Ok b /\
     encode M (VBuf (digest r)) (VNum (of_Z c)) VUndefined = Ok b).
Proof.
  intros H.
  destruct (decode_ok_inv M b r H) as (c & l & d & -> & Hc & Hl & Hr & ->).
  exists c, l. cbn [code length digest].
  split; [reflexivity | ]. split; [reflexivity | ]. intros Hbyte.
  assert (Ht : truthy (VNum (of_Z c)) = true).
  { cbn [truthy]. rewrite truthy_number_of_Z.
    destruct (Z.eqb_spec c 0); [lia | reflexivity]. }
  pose proof (coerceCode_valid M c Hc) as Hcc. subst l.
  split.
  - rewrite (encode_ok_intro M d (VNum (of_Z c)) (of_Z c)
               (VNum (of_Z (Buffer_length d))) Ht Hcc);
      [rewrite ToUint8_byte by lia; reflexivity | lia | ].
    apply resulting_length_cases. right.
    exists (of_Z (Buffer_length d)). split; [reflexivity | ].
    rewrite strict_eq_of_Z. apply Z.eqb_refl.
  - rewrite (encode_ok_intro M d (VNum (of_Z c)) (of_Z c) VUndefined Ht Hcc);
      [rewrite ToUint8_byte by lia; reflexivity | lia | discriminate].
Qed.

Lemma decode_then_encode_witness :
  encode empty_module (VBuf [4; 5]) (VNum (of_Z 12)) (VNum (of_Z 2))
  = Ok [12; 2; 4; 5] /\
  encode empty_module (VBuf [4; 5]) (VNum (of_Z 12)) VUndefined
  = Ok [12; 2; 4; 5].
Proof.
  destruct (decode_then_encode empty_module [12; 2; 4; 5]
              {| code := Some 12; name := None;
                 length := Some 2; digest := [4; 5] |} eq_refl)
    as (c & l & Hc & Hl & H).
  cbn [code length digest] in Hc, Hl, H.
  injection Hc as <-. injection Hl as <-. apply H. lia.
Defined.

(** X16: [validate] reads the length of its input and its first two
    bytes, never the digest bytes: two byte sequences of the same length
    with the same first two bytes get the same verdict. *)
Theorem validate_ignores_digest_bytes (M : Module) (b1 b2 : Buffer) :
  List.length b1 = List.length b2 ->
  Buffer_get b1 0 = Buffer_get b2 0 ->
  Buffer_get b1 1 = Buffer_get b2 1 ->
  validate M (VBuf b1) = validate M (VBuf b2).
Proof.
  intros Hlen H0 H1. unfold validate, Buffer_length, Buffer_slice.
  rewrite !length_skipn, Hlen, H0, H1. reflexivity.
Qed.

Lemma validate_ignores_digest_bytes_witness :
  validate empty_module (VBuf [3; 2; 0; 0])
  = validate empty_module (VBuf [3; 2; 0xff; 0x7f]).
Proof.
  apply (validate_ignores_digest_bytes empty_module
           [3; 2; 0; 0] [3; 2; 0xff; 0x7f]);
    reflexivity.
Defined.

(** X17: valid envelopes are self-delimiting: a byte sequence that passes
    [validate] has no proper extension that passes it too. *)
Theorem validate_prefix_free (M : Module) (b t : Buffer) :
  validate M (VBuf b) = None ->
  validate M (VBuf (b ++ t)%list) = None ->
  t = [].
Proof.
  intros H1 H2.
  destruct (validate_none_shape M b H1) as (c & l & d & -> & _ & _ & Hl).
  destruct (validate_none_shape M _ H2) as (c' & l' & d' & E & _ & _ & Hl').
  cbn [app] in E. injection E as <- <- <-.
  rewrite length_app in Hl'.
  destruct t as [ | x t]; [reflexivity | ]. cbn [List.length] in Hl'. lia.
Qed.

Lemma validate_prefix_free_witness : @nil Z = [].
Proof.
  apply (validate_prefix_free empty_module [3; 1; 7] []); reflexivity.
Defined.

(** ** The exported function, further *)

(** X18: called with a designator, the exported function never decodes:
    when [hashfn] is neither [null] nor [undefined] and either argument is
    falsy (a [hashfn] of 0, of the empty string or of [false], for one),
    it fails with MissingArguments, as it does whenever the first argument
    is [null] or [undefined]. *)
Theorem mh_missing_arguments (M : Module) (hashOrDigest hashfn len : value) :
  is_nullish hashOrDigest = true
  \/ (is_nullish hashfn = false /\
      (truthy hashOrDigest = false \/ truthy hashfn = false)) ->
  mh M hashOrDigest hashfn len = Err MissingArguments.
Proof.
  intros [H | [Hh Hf]]; unfold mh; [rewrite H; reflexivity | ].
  destruct (is_nullish hashOrDigest); [reflexivity | ].
  rewrite Hh. cbn [negb]. unfold encode.
  destruct Hf as [Hf | Hf]; rewrite Hf; cbn [negb orb bind];
    [ | rewrite orb_true_r]; reflexivity.
Qed.

Lemma mh_missing_arguments_witness :
  mh empty_module (VBuf [3; 1; 2]) (VNum (of_Z 0)) VUndefined
  = Err MissingArguments.
Proof.
  apply (mh_missing_arguments empty_module (VBuf [3; 1; 2]) (VNum (of_Z 0))
           VUndefined).
  right. split; [reflexivity | right; reflexivity].
Defined.

(** X19: the exported function is its own inverse on digests of 1 to 127
    bytes: called with the digest and a valid code from 1 to 255 it
    returns an envelope, and called with that envelope alone it returns
    the record of the code, the code table's name for it, the digest's
    length and the digest. *)
Theorem mh_round_trip (M : Module) (d : Buffer) (c : Z) :
  (1 <= List.length d <= 127)%nat ->
  1 <= c <= 255 ->
  valid_code M c ->
  exists out,
    mh M (VBuf d) (VNum (of_Z c)) VUndefined = Ok (Encoded out) /\
    mh M (VBuf out) VUndefined VUndefined =
      Ok (DecodedOut
            {| code := Some c;
               name := Map_get same_value_zero (codes M) (of_Z c);
               length := Some (Buffer_length d); digest := d |}).
Proof.
  intros Hd Hbyte Hc. exists (c :: Buffer_length d :: d). unfold mh.
  cbn [is_nullish negb].
  assert (Ht : truthy (VNum (of_Z c)) = true).
  { cbn [truthy]. rewrite truthy_number_of_Z.
    destruct (Z.eqb_spec c 0); [lia | reflexivity]. }
  rewrite (encode_ok_intro M d (VNum (of_Z c)) (of_Z c) VUndefined Ht
             (coerceCode_valid M c Hc));
    [ | unfold Buffer_length; lia | discriminate].
  rewrite ToUint8_byte by lia. split; [reflexivity | ].
  rewrite (decode_ok M c (Buffer_length d) d); [reflexivity | ].
  apply validate_valid_envelope; assumption.
Qed.

Lemma mh_round_trip_witness :
  exists out,
    mh empty_module (VBuf [1; 2; 3]) (VNum (of_Z 2)) VUndefined
    = Ok (Encoded out) /\
    mh empty_module (VBuf out) VUndefined VUndefined =
      Ok (DecodedOut
            {| code := Some 2;
               name := Map_get same_value_zero (codes empty_module) (of_Z 2);
               length := Some (Buffer_length [1; 2; 3]);
               digest := [1; 2; 3] |}).
Proof.
  apply (mh_round_trip empty_module [1; 2; 3] 2).
  - simpl; lia.
  - lia.
  - right. unfold application_code. lia.
Defined.

(** ** encode, then decode *)

(** X24: whatever the designator and the length argument, an output of
    [encode] for a digest that is not empty and a code byte that is a
    valid code decodes to that code byte, the code table's name for it,
    the digest's byte length and the digest; the output for the empty
    digest is rejected by [decode] as too short, and an output whose code
    byte is not a valid code, as of unknown function code. *)
Theorem encode_then_decode (M : Module) (d hashfn len : value)
  (out : Buffer) :
  encode M d hashfn len = Ok out ->
  exists b c,
    d = VBuf b /\ coerceCode M hashfn = Ok c /\
    (b = [] -> decode M out = Err TooShort) /\
    (b <> [] -> valid_code M (ToUint8 c) ->
     decode M out =
       Ok {| code := Some (ToUint8 c);
             name := Map_get same_value_zero (codes M) (of_Z (ToUint8 c));
             length := Some (Buffer_length b); digest := b |}) /\
    (b <> [] -> ~ valid_code M (ToUint8 c) ->
     decode M out = Err UnknownFunctionCode).
Proof.
  intros H.
  destruct (encode_ok_inv M _ _ _ _ H)
    as (b & c & -> & _ & Hc & Hb & _ & ->).
  exists b, c. split; [reflexivity | ]. split; [exact Hc | ].
  split; [intros ->; reflexivity | ].
  assert (R : b <> [] ->
              (3 <= List.length (ToUint8 c :: Buffer_length b :: b) <= 129)%nat).
  { intros Hne. destruct b; [contradiction | ].
    unfold Buffer_length in Hb. cbn [List.length] in *. lia. }
  split.
  - intros Hne Hv. apply decode_ok. apply validate_spec_functional.
    apply VS_NoFailure; [apply R; exact Hne | exact Hv | reflexivity].
  - intros Hne Hv. apply decode_err. apply validate_spec_functional.
    apply VS_UnknownFunctionCode; [apply R; exact Hne | exact Hv].
Qed.

Lemma encode_then_decode_witness :
  decode empty_module [0; 2; 8; 9] = Err UnknownFunctionCode.
Proof.
  destruct (encode_then_decode empty_module (VBuf [8; 9])
              (VNum (Finite (1 # 2))) VUndefined [0; 2; 8; 9] eq_refl)
    as (b & c & Eb & Ec & _ & _ & H).
  injection Eb as <-. injection Ec as <-. apply H; [discriminate | ].
  intros [(n & E & _) | A]; [discriminate E | ].
  unfold application_code in A. vm_compute in A. destruct A as [A _].
  apply A. reflexivity.
Defined.

(** ** Designators that are not integers *)

Lemma Qfloor_app_range (q : Q) :
  isAppCode (Finite q) = true ->
  Qeq_bool q 0 = false /\ Qle_bool 0 q = true /\ 0 <= Qfloor q <= 15.
Proof.
  unfold isAppCode, number_gtb, number_ltb, of_Z. intros H.
  apply andb_true_iff in H. destruct H as [H0 H16].
  apply negb_true_iff in H0. apply negb_true_iff in H16.
  assert (P0 : (0 < q)%Q).
  { apply Qnot_le_lt. intros L. apply Qle_bool_iff in L.
    change (inject_Z 0) with 0%Q in H0. congruence. }
  assert (P16 : (q < inject_Z 16)%Q).
  { apply Qnot_le_lt. intros L. apply Qle_bool_iff in L. congruence. }
  split; [ | split; [ | split]].
  - destruct (Qeq_bool q 0) eqn:E; [ | reflexivity].
    apply Qeq_bool_iff in E. rewrite E in P0.
    exfalso. exact (Qlt_irrefl 0 P0).
  - apply Qle_bool_iff. apply Qlt_le_weak. exact P0.
  - change 0 with (Qfloor (inject_Z 0)). apply Qfloor_resp_le.
    apply Qlt_le_weak. exact P0.
  - assert (L : (inject_Z (Qfloor q) < inject_Z 16)%Q)
      by (eapply Qle_lt_trans; [apply Qfloor_le | exact P16]).
    rewrite <- Zlt_Qlt in L. lia.
Qed.

(** X25: [coerceCode] accepts every number strictly between 0 and 16,
    integer or not, whatever the tables hold, and returns it unchanged;
    [encode] then writes its integer part as the code byte, so that a
    designator between 0 and 1 gives the code byte 0 and two designators
    with the same integer part give the same envelope. *)
Theorem encode_fractional_code (M : Module) (d : Buffer) (q : Q) :
  isAppCode (Finite q) = true ->
  Buffer_length d <= 127 ->
  coerceCode M (VNum (Finite q)) = Ok (Finite q) /\
  0 <= Qfloor q <= 15 /\
  encode M (VBuf d) (VNum (Finite q)) VUndefined
  = Ok (Qfloor q :: Buffer_length d :: d).
Proof.
  intros Ha Hd. destruct (Qfloor_app_range q Ha) as (Hz & Hp & Hf).
  assert (Hc : coerceCode M (VNum (Finite q)) = Ok (Finite q)).
  { rewrite coerceCode_number, Ha. cbn [negb]. rewrite andb_false_r.
    reflexivity. }
  split; [exact Hc | ]. split; [exact Hf | ].
  assert (Ht : truthy (VNum (Finite q)) = true)
    by (cbn [truthy truthy_number]; rewrite Hz; reflexivity).
  rewrite (encode_ok_intro M d (VNum (Finite q)) (Finite q) VUndefined Ht Hc
             Hd); [ | discriminate].
  unfold ToUint8, truncate. rewrite Hp, Z.mod_small by lia. reflexivity.
Qed.

Lemma encode_fractional_code_witness :
  coerceCode empty_module (VNum (Finite (3 # 2))) = Ok (Finite (3 # 2)) /\
  0 <= Qfloor (3 # 2) <= 15 /\
  encode empty_module (VBuf [7]) (VNum (Finite (3 # 2))) VUndefined
  = Ok (Qfloor (3 # 2) :: Buffer_length [7] :: [7]).
Proof.
  apply (encode_fractional_code empty_module [7] (3 # 2)).
  - reflexivity.
  - vm_compute; discriminate.
Defined.
